(** * A shallow embedding of the alert reconciler of prometheus-cachethq

    The development embeds [SubmitAlert] of [webserver.go]: the Prometheus
    Alertmanager webhook payload, the configuration it reads, the calls it
    makes on the CachetHQ client, and the HTTP answer it writes.

    The CachetHQ client is an arbitrary, possibly stateful backend: each
    of its operations is a function of the whole history of calls made on
    it so far (all earlier invocations included), so a theorem that holds
    for every [Cachet] value holds whatever the status page answers.

    Go's multiple return values [(v, err)] are pairs whose error component
    is [option string]: [None] is [nil], [Some m] an error whose [Error()]
    is [m]. *)

From Stdlib Require Import ZArith String Ascii List Bool Lia.
From Stdlib Require Import Floats.SpecFloat.
From stdpp Require Import base gmap strings.

Import ListNotations.
Open Scope Z_scope.

(** ** Payload (webserver.go, [PrometheusAlertDetail] and [PrometheusAlert]) *)

Record PrometheusAlertDetail := {
  Labels : gmap string string;
  Annotations : gmap string string;
  StartAt : string;
  EndsAt : string
}.

Record PrometheusAlert := {
  Version : string;
  GroupKey : string;
  Status : string;
  Receiver : string;
  GroupLabels : gmap string string;
  CommonLabels : gmap string string;
  CommonAnnotations : gmap string string;
  ExternalURL : string;
  Alerts : list PrometheusAlertDetail
}.

(** Go's [m[k]] on a [map[string]string]: the zero value [""] when the key
    is absent. *)
Definition go_lookup_string (m : gmap string string) (k : string) : string :=
  match m !! k with Some v => v | None => ""%string end.

(** Go's [m[k]] on a [map[int]int]: [0] when the key is absent. *)
Definition go_lookup_int (m : gmap Z Z) (k : Z) : Z :=
  match m !! k with Some v => v | None => 0 end.

(** ** The fields of [PrometheusCachetConfig] that [SubmitAlert] reads
    ([LogLevel] only selects debug logging, which has no observable
    effect on the answer or on the backend). *)
Record PrometheusCachetConfig := {
  PrometheusToken : string;
  LogLevel : string;
  LabelName : string;
  SquashIncident : bool
}.

(** ** The CachetHQ client as [SubmitAlert] uses it *)

(** The fields of a Cachet incident that the handler reads. *)
Record Incident := {
  Id : Z;
  IncStatus : Z;
  CreatedAt : string;
  UpdatedAt : string
}.

(** One call on the client, with its arguments. *)
Inductive Call :=
| CListComponents
| CSearchIncidents (componentID : Z)
| CCreateIncident (name : string) (componentID status componentStatus : Z)
| CUpdateIncident (name : string) (componentID incidentID status : Z) (message : string)
| CReadIncident (incidentID : Z).

(** The answers of the client; the first argument of each operation is the
    history of calls issued before this one, oldest first. *)
Record Cachet := {
  ListComponents : list Call -> gmap string Z * option string;
  SearchIncidents : list Call -> Z -> list Incident * option string;
  CreateIncident : list Call -> string -> Z -> Z -> Z -> option string;
  UpdateIncident : list Call -> string -> Z -> Z -> Z -> string -> option string;
  ReadIncident : list Call -> Z -> Incident * option string
}.

(** The answer written with [c.JSON]. *)
Inductive Response :=
| BadRequest (error : string)   (* http.StatusBadRequest, {"error": ...} *)
| StatusOK.                     (* http.StatusOK, {"status": "OK"} *)

(** ** The handler's effects: the call history, and [c.JSON(...); return]
    as an early exit carrying the answer. *)
Definition M (A : Type) : Type := list Call -> list Call * (Response + A).

Definition ret {A} (a : A) : M A := fun tr => (tr, inr a).

Definition bind {A B} (m : M A) (k : A -> M B) : M B :=
  fun tr =>
    match m tr with
    | (tr', inl r) => (tr', inl r)
    | (tr', inr a) => k a tr'
    end.

Notation "'let*' x ':=' m 'in' k" := (bind m (fun x => k))
  (at level 200, x name, m at level 100, k at level 200).

(** [c.JSON(code, ...); return] *)
Definition respond {A} (r : Response) : M A := fun tr => (tr, inl r).

(** Issuing a call: it is appended to the history, and the backend answers
    as a function of the history before it. *)
Definition issue {A} (c : Call) (answer : list Call -> A) : M A :=
  fun tr => (tr ++ [c], inr (answer tr)).

Section Client.
Variable cachet : Cachet.

Definition listComponents : M (gmap string Z * option string) :=
  issue CListComponents (fun tr => ListComponents cachet tr).
Definition searchIncidents (cid : Z) : M (list Incident * option string) :=
  issue (CSearchIncidents cid) (fun tr => SearchIncidents cachet tr cid).
Definition createIncident (name : string) (cid st cst : Z) : M (option string) :=
  issue (CCreateIncident name cid st cst)
    (fun tr => CreateIncident cachet tr name cid st cst).
Definition updateIncident (name : string) (cid iid st : Z) (msg : string)
  : M (option string) :=
  issue (CUpdateIncident name cid iid st msg)
    (fun tr => UpdateIncident cachet tr name cid iid st msg).
Definition readIncident (iid : Z) : M (Incident * option string) :=
  issue (CReadIncident iid) (fun tr => ReadIncident cachet tr iid).
End Client.

(** ** Go's [time] package, as far as the handler uses it *)

Module GoTime.

(** A [time.Time] in UTC: seconds since 0000-01-01 00:00:00 (proleptic
    Gregorian, no leap seconds) and nanoseconds within the second. *)
Record Time := { sec : Z; nsec : Z }.

Definition digit_val (c : ascii) : Z := Z.of_nat (nat_of_ascii c) - 48.

Definition is_digit (c : ascii) : bool :=
  (48 <=? Z.of_nat (nat_of_ascii c)) && (Z.of_nat (nat_of_ascii c) <=? 57).

(** [isDigit(s, i)] *)
Definition isDigit (s : list ascii) (i : nat) : bool :=
  match nth_error s i with Some c => is_digit c | None => false end.

(** [getnum(s, fixed)]: one or two leading digits; two are required when
    [fixed]. *)
Definition getnum (s : list ascii) (fixed : bool) : option (Z * list ascii) :=
  match s with
  | c0 :: rest =>
      if is_digit c0 then
        match rest with
        | c1 :: rest' =>
            if is_digit c1 then Some (10 * digit_val c0 + digit_val c1, rest')
            else if fixed then None else Some (digit_val c0, rest)
        | [] => if fixed then None else Some (digit_val c0, rest)
        end
      else None
  | [] => None
  end.

(** [cutspace(s)]: drop the leading spaces. *)
Fixpoint cutspace (s : list ascii) : list ascii :=
  match s with
  | " "%char :: s' => cutspace s'
  | _ => s
  end.

(** [skip(value, prefix)]: a space of the layout matches any run of spaces
    (also none at the end of the value); any other byte must match. The
    fuel is the length of the prefix, which shrinks at every round. *)
Fixpoint skip_go (fuel : nat) (value prefix : list ascii) : option (list ascii) :=
  match fuel with
  | O => Some value
  | S fuel' =>
      match prefix with
      | [] => Some value
      | " "%char :: _ =>
          match value with
          | c :: _ => if Ascii.eqb c " " then
                        skip_go fuel' (cutspace value) (cutspace prefix)
                      else None
          | [] => skip_go fuel' (cutspace value) (cutspace prefix)
          end
      | p :: prefix' =>
          match value with
          | c :: value' => if Ascii.eqb c p then skip_go fuel' value' prefix' else None
          | [] => None
          end
      end
  end.

Definition skip (value prefix : list ascii) : option (list ascii) :=
  skip_go (length prefix) value prefix.

(** [atoi] on the digits only (the callers have checked the first byte is a
    digit, so no sign is possible). *)
Fixpoint atoi_digits (s : list ascii) (acc : Z) : option Z :=
  match s with
  | [] => Some acc
  | c :: s' => if is_digit c then atoi_digits s' (10 * acc + digit_val c) else None
  end.

(** The number of leading digits of [s]. *)
Fixpoint count_digits (s : list ascii) : nat :=
  match s with
  | c :: s' => if is_digit c then S (count_digits s') else O
  | [] => O
  end.

(** [parseNanoseconds(value, nbytes)] for a value starting with [.] or [,]
    followed by [nbytes - 1] digits: at most nine digits are kept, scaled
    to nanoseconds. *)
Definition parseNanoseconds (value : list ascii) (nbytes : nat) : option Z :=
  let nbytes' := Nat.min nbytes 10 in
  match atoi_digits (firstn (nbytes' - 1) (skipn 1 value)) 0 with
  | Some ns => Some (ns * 10 ^ Z.of_nat (10 - nbytes'))
  | None => None
  end.

Definition commaOrPeriod (c : ascii) : bool := Ascii.eqb c "." || Ascii.eqb c ",".

Definition isLeap (year : Z) : bool :=
  (year mod 4 =? 0) && (negb (year mod 100 =? 0) || (year mod 400 =? 0)).

(** [daysIn(month, year)] *)
Definition daysIn (month year : Z) : Z :=
  if month =? 2 then (if isLeap year then 29 else 28)
  else if (month =? 4) || (month =? 6) || (month =? 9) || (month =? 11) then 30
  else 31.

(** Days from 0000-01-01 to the first day of [year] (year 0 is a leap year). *)
Definition days_before_year (year : Z) : Z :=
  365 * year + (year + 3) / 4 - (year + 99) / 100 + (year + 399) / 400.

Fixpoint days_before_month_go (m : nat) (year : Z) : Z :=
  match m with
  | O => 0
  | S m' => days_before_month_go m' year + daysIn (Z.of_nat (S m')) year
  end.

(** Days from the first of January to the first day of [month]. *)
Definition days_before_month (month year : Z) : Z :=
  days_before_month_go (Z.to_nat (month - 1)) year.

(** [Date(year, month, day, hour, min, sec, nsec, UTC)] for in-range fields. *)
Definition Date (year month day hour min sec nsec : Z) : Time :=
  {| sec := (days_before_year year + days_before_month month year + (day - 1)) * 86400
            + hour * 3600 + min * 60 + sec;
     nsec := nsec |}.

(** [time.Parse("2006-01-02 15:04:05", value)], the layout of the handler,
    chunk by chunk as Go's [Parse] walks it: [2006] (stdLongYear), [-],
    [01] (stdZeroMonth), [-], [02] (stdZeroDay), [ ], [15] (stdHour), [:],
    [04] (stdZeroMinute), [:], [05] (stdZeroSecond, with Go's special case
    of a fractional second absent from the layout), then no extra text;
    last, the day is checked against the month. [None] is a non-nil
    error. *)
Definition ParseLayout (avalue : string) : option Time :=
  let value := list_ascii_of_string avalue in
  (* stdLongYear *)
  if Nat.ltb (length value) 4 || negb (isDigit value 0) then None else
  match atoi_digits (firstn 4 value) 0 with None => None | Some year =>
  match skip (skipn 4 value) ["-"%char] with None => None | Some value =>
  (* stdZeroMonth *)
  match getnum value true with None => None | Some (month, value) =>
  if (month <=? 0) || (12 <? month) then None else
  match skip value ["-"%char] with None => None | Some value =>
  (* stdZeroDay *)
  match getnum value true with None => None | Some (day, value) =>
  match skip value [" "%char] with None => None | Some value =>
  (* stdHour *)
  match getnum value false with None => None | Some (hour, value) =>
  if (hour <? 0) || (24 <=? hour) then None else
  match skip value [":"%char] with None => None | Some value =>
  (* stdZeroMinute *)
  match getnum value true with None => None | Some (min, value) =>
  if (min <? 0) || (60 <=? min) then None else
  match skip value [":"%char] with None => None | Some value =>
  (* stdZeroSecond *)
  match getnum value true with None => None | Some (sec, value) =>
  if (sec <? 0) || (60 <=? sec) then None else
  let frac :=
    match value with
    | c :: _ =>
        if Nat.leb 2 (length value) && commaOrPeriod c && isDigit value 1 then
          let n := (2 + count_digits (skipn 2 value))%nat in
          match parseNanoseconds value n with
          | Some ns => Some (ns, skipn n value)
          | None => None
          end
        else Some (0, value)
    | [] => Some (0, value)
    end in
  match frac with None => None | Some (nsec, value) =>
  (* end of the layout: no extra text *)
  match value with _ :: _ => None | [] =>
  if (day <? 1) || (daysIn month year <? day) then None else
  Some (Date year month day hour min sec nsec)
  end end end end end end end end end end end end end.

Definition minDuration : Z := - 2 ^ 63.
Definition maxDuration : Z := 2 ^ 63 - 1.

(** [t.Sub(u)]: the exact difference in nanoseconds, saturated to the
    [Duration] range (int64). *)
Definition Sub (t u : Time) : Z :=
  let d := (sec t - sec u) * 1000000000 + (nsec t - nsec u) in
  if maxDuration <? d then maxDuration
  else if d <? minDuration then minDuration
  else d.

(** float64 arithmetic: IEEE binary64 with rounding to nearest even. *)
Definition float64 := spec_float.
Definition float64_of_int (z : Z) : float64 := binary_normalize 53 1024 z 0 false.
Definition fadd (x y : float64) : float64 := SFadd 53 1024 x y.
Definition fdiv (x y : float64) : float64 := SFdiv 53 1024 x y.

(** [int(f)] for a finite [f]: truncation toward zero. *)
Definition int_of_float64 (f : float64) : Z :=
  match f with
  | S754_finite s m e =>
      let v := if 0 <=? e then Z.pos m * 2 ^ e else Z.pos m / 2 ^ (- e) in
      if s then - v else v
  | _ => 0
  end.

Definition Minute : Z := 60000000000.

(** [d.Minutes()] *)
Definition Minutes (d : Z) : float64 :=
  let min := Z.quot d Minute in
  let nsec := Z.rem d Minute in
  fadd (float64_of_int min) (fdiv (float64_of_int nsec) (float64_of_int 60000000000)).

End GoTime.

(** ** [fmt.Sprintf] pieces *)

Fixpoint decimal_go (fuel : nat) (n : Z) (acc : string) : string :=
  match fuel with
  | O => acc
  | S fuel' =>
      let acc' := String (ascii_of_nat (Z.to_nat (48 + n mod 10))) acc in
      if n <? 10 then acc' else decimal_go fuel' (n / 10) acc'
  end.

(** [%d] of an integer. *)
Definition itoa (z : Z) : string :=
  let digits n := decimal_go (S (Z.to_nat (Z.log2 n))) n EmptyString in
  if z <? 0 then String "-" (digits (- z)) else digits z.

Definition newline : string := String (ascii_of_nat 10) EmptyString.

Definition sappend (s1 s2 : string) : string := String.append s1 s2.
Infix "+++" := sappend (right associativity, at level 60).

(** ** [SubmitAlert] (webserver.go) *)

Section SubmitAlert.
Variable cachet : Cachet.
Variable config : PrometheusCachetConfig.

Definition layout : string := "2006-01-02 15:04:05".

(** [alert.Labels[config.LabelName]] *)
Definition label_value (alert : PrometheusAlertDetail) : string :=
  go_lookup_string (Labels alert) (LabelName config).

(** Lines 71-76: the incident status and the component status. *)
Definition derive_status (alerts : PrometheusAlert) : Z * Z :=
  let status := 1 in            (* "resolved" *)
  let componentStatus := 1 in
  if String.eqb (Status alerts) "firing" then (4, 4)
  else (status, componentStatus).

Definition up_message (name : string) : string :=
  "Prometheus flagged service " +++ name +++ " as up".

Definition up_message_with_downtime (name : string) (minutes : Z) : string :=
  "Prometheus flagged service " +++ name +++ " as up (service was down for "
    +++ itoa minutes +++ " minutes)".

Definition no_incident_message (componentID : Z) : string :=
  "No incident found for component " +++ itoa componentID +++ newline.

(** Lines 97-112: squash mode, firing. *)
Definition squash_firing (alert : PrometheusAlertDetail) (componentID status componentStatus : Z)
  : M unit :=
  let* res := searchIncidents cachet componentID in
  let '(incidents, err) := res in
  match err with
  | Some e => respond (BadRequest e)
  | None =>
      (* if no open incident currently, let's create a new one *)
      let create_new :=
        match incidents with
        | [] => true                          (* len(incidents) == 0 *)
        | i0 :: _ => IncStatus i0 =? 4        (* incidents[0].Status == 4 *)
        end in
      if create_new then
        let* err := createIncident cachet (label_value alert) componentID status componentStatus in
        match err with
        | Some e => respond (BadRequest e)
        | None => ret tt
        end
      else ret tt
  end.

(** Lines 113-143: squash mode, resolved. *)
Definition squash_resolved (alert : PrometheusAlertDetail) (componentID status : Z) : M unit :=
  let* res := searchIncidents cachet componentID in
  let '(incidents, err) := res in
  match err with
  | None =>
      match incidents with
      | i0 :: _ =>                            (* len(incidents) > 0 *)
          match err with
          | None =>
              let* _ := updateIncident cachet (label_value alert) componentID (Id i0) status
                          (up_message (label_value alert)) in
              let incidentID := Id i0 in
              let componentName := label_value alert in
              let* res := readIncident cachet incidentID in
              let '(incident, err) := res in
              match err with
              | None =>
                  let createdAt := GoTime.ParseLayout (CreatedAt incident) in
                  let updatedAt := GoTime.ParseLayout (UpdatedAt incident) in
                  match createdAt, updatedAt with
                  | Some createdAt, Some updatedAt =>
                      let* _ := updateIncident cachet componentName componentID incidentID status
                                  (up_message_with_downtime componentName
                                     (GoTime.int_of_float64
                                        (GoTime.Minutes (GoTime.Sub updatedAt createdAt)))) in
                      ret tt
                  | _, _ => ret tt
                  end
              | Some _ => ret tt
              end
          | Some e => respond (BadRequest e)
          end
      | [] => respond (BadRequest (no_incident_message componentID))
      end
  | Some e => respond (BadRequest e)
  end.

(** Lines 145-153: no squash, create a new incident. *)
Definition create_new_incident (alert : PrometheusAlertDetail) (componentID status componentStatus : Z)
  : M unit :=
  let* err := createIncident cachet (label_value alert) componentID status componentStatus in
  match err with
  | Some e => respond (BadRequest e)
  | None => ret tt
  end.

(** Lines 95-153: the work done for a first-seen component. *)
Definition fire (alert : PrometheusAlertDetail) (componentID status componentStatus : Z) : M unit :=
  if SquashIncident config then
    if negb (status =? 1) then squash_firing alert componentID status componentStatus
    else squash_resolved alert componentID status
  else create_new_incident alert componentID status componentStatus.

(** Lines 90-155: one iteration of the loop, threading [alreadyFired]. *)
Definition process_alert (list' : gmap string Z) (status componentStatus : Z)
  (alreadyFired : gmap Z Z) (alert : PrometheusAlertDetail) : M (gmap Z Z) :=
  match list' !! label_value alert with
  | Some componentID =>
      if go_lookup_int alreadyFired componentID =? 0 then
        let alreadyFired := <[componentID := 1]> alreadyFired in
        let* _ := fire alert componentID status componentStatus in
        ret alreadyFired
      else ret alreadyFired
  | None => ret alreadyFired
  end.

(** Line 89: [for _, alert := range alerts.Alerts]; [list'] is the
    component directory [list] of the source. *)
Fixpoint process_alerts (list' : gmap string Z) (status componentStatus : Z)
  (alreadyFired : gmap Z Z) (alerts : list PrometheusAlertDetail) : M (gmap Z Z) :=
  match alerts with
  | [] => ret alreadyFired
  | alert :: rest =>
      let* alreadyFired := process_alert list' status componentStatus alreadyFired alert in
      process_alerts list' status componentStatus alreadyFired rest
  end.

(** Lines 67-166, once the JSON body is bound to [alerts]. *)
Definition handle (alerts : PrometheusAlert) : M Response :=
  let '(status, componentStatus) := derive_status alerts in
  let* res := listComponents cachet in
  let '(list', err) := res in
  match err with
  | Some e => respond (BadRequest e)
  | None =>
      let alreadyFired := ∅ in
      let* _ := process_alerts list' status componentStatus alreadyFired (Alerts alerts) in
      ret StatusOK
  end.

(** The whole handler: the bearer check (lines 55-65), the binding of the
    body ([inl] carries the binding error), then [handle]. [history] is
    the calls made on the client before this request; the result is the
    history after it, and the answer written. *)
Definition SubmitAlert (authorization : string) (body : string + PrometheusAlert)
  (history : list Call) : list Call * Response :=
  if negb (String.eqb (PrometheusToken config) "")
     && negb (String.eqb authorization ("Bearer " +++ PrometheusToken config))
  then (history, BadRequest "wrong Authorization header")
  else
    match body with
    | inl e => (history, BadRequest e)
    | inr alerts =>
        match handle alerts history with
        | (tr, inl r) => (tr, r)
        | (tr, inr r) => (tr, r)
        end
    end.
End SubmitAlert.

(** ** A concrete status page, to run the handler on

    It keeps the incidents as the history of calls makes them: a create
    adds an incident (its id is its position in the history), an update
    sets the status of the incident it names, a search returns the
    component's incidents newest first. Creation and update times are
    fixed one hour apart. *)
Module Page.

Definition created : string := "2020-01-01 10:00:00".
Definition updated : string := "2020-01-01 11:00:00".

Definition apply_call (acc : Z * list (Z * Incident)) (c : Call) : Z * list (Z * Incident) :=
  let '(n, incs) := acc in
  match c with
  | CCreateIncident _ cid st _ =>
      (n + 1, (cid, {| Id := n; IncStatus := st; CreatedAt := created; UpdatedAt := updated |}) :: incs)
  | CUpdateIncident _ _ iid st _ =>
      (n + 1, map (fun p => if Id (snd p) =? iid
                            then (fst p, {| Id := iid; IncStatus := st;
                                            CreatedAt := CreatedAt (snd p);
                                            UpdatedAt := UpdatedAt (snd p) |})
                            else p) incs)
  | _ => (n + 1, incs)
  end.

Definition incidents (tr : list Call) : list (Z * Incident) :=
  snd (fold_left apply_call tr (0, [])).

Definition search (tr : list Call) (cid : Z) : list Incident :=
  map snd (filter (fun p => bool_decide (fst p = cid)) (incidents tr)).

Definition read (tr : list Call) (iid : Z) : Incident :=
  match filter (fun p => bool_decide (Id (snd p) = iid)) (incidents tr) with
  | p :: _ => snd p
  | [] => {| Id := iid; IncStatus := 0; CreatedAt := ""; UpdatedAt := "" |}
  end.

Definition directory : gmap string Z := <["api" := 42]> ∅.

(** A page that accepts every call. *)
Definition page : Cachet := {|
  ListComponents := fun _ => (directory, None);
  SearchIncidents := fun tr cid => (search tr cid, None);
  CreateIncident := fun _ _ _ _ _ => None;
  UpdateIncident := fun _ _ _ _ _ _ => None;
  ReadIncident := fun tr iid => (read tr iid, None)
|}.

(** The same page, whose updates all fail. *)
Definition page_update_fails : Cachet := {|
  ListComponents := fun _ => (directory, None);
  SearchIncidents := fun tr cid => (search tr cid, None);
  CreateIncident := fun _ _ _ _ _ => None;
  UpdateIncident := fun _ _ _ _ _ _ => Some "500 Internal Server Error"%string;
  ReadIncident := fun tr iid => (read tr iid, None)
|}.

(** The same page, whose reads all fail. *)
Definition page_read_fails : Cachet := {|
  ListComponents := fun _ => (directory, None);
  SearchIncidents := fun tr cid => (search tr cid, None);
  CreateIncident := fun _ _ _ _ _ => None;
  UpdateIncident := fun _ _ _ _ _ _ => None;
  ReadIncident := fun _ iid => ({| Id := iid; IncStatus := 0; CreatedAt := ""; UpdatedAt := "" |},
                                Some "404 Not Found"%string)
|}.

Definition squash_config : PrometheusCachetConfig :=
  {| PrometheusToken := ""; LogLevel := "info"; LabelName := "service"; SquashIncident := true |}.

Definition plain_config : PrometheusCachetConfig :=
  {| PrometheusToken := ""; LogLevel := "info"; LabelName := "service"; SquashIncident := false |}.

Definition alert_of (service : string) : PrometheusAlertDetail :=
  {| Labels := <["service" := service]> ∅; Annotations := ∅; StartAt := ""; EndsAt := "" |}.

Definition group (status : string) (alerts : list PrometheusAlertDetail) : PrometheusAlert :=
  {| Version := "4"; GroupKey := ""; Status := status; Receiver := "";
     GroupLabels := ∅; CommonLabels := ∅; CommonAnnotations := ∅;
     ExternalURL := ""; Alerts := alerts |}.

End Page.

(** ** Derived notions used to state the properties *)

(** The first-seen components of a batch, in order, with the alert that
    resolved to each: an alert is kept when its label value is in the
    directory and its component is not yet marked in [seen]. *)
Fixpoint first_seen (config : PrometheusCachetConfig) (list' : gmap string Z)
  (seen : gmap Z Z) (alerts : list PrometheusAlertDetail) : list (PrometheusAlertDetail * Z) :=
  match alerts with
  | [] => []
  | a :: rest =>
      match list' !! label_value config a with
      | Some cid =>
          if go_lookup_int seen cid =? 0
          then (a, cid) :: first_seen config list' (<[cid := 1]> seen) rest
          else first_seen config list' seen rest
      | None => first_seen config list' seen rest
      end
  end.

(** [fire] on each pair in turn, stopping at the first answer written. *)
Fixpoint run_fires (cachet : Cachet) (config : PrometheusCachetConfig) (status componentStatus : Z)
  (l : list (PrometheusAlertDetail * Z)) : M unit :=
  match l with
  | [] => ret tt
  | (a, cid) :: l' =>
      let* _ := fire cachet config a cid status componentStatus in
      run_fires cachet config status componentStatus l'
  end.

(** A run with its normal result forgotten. *)
Definition forget_result {A} (r : list Call * (Response + A)) : list Call * (Response + unit) :=
  match r with
  | (tr, inl e) => (tr, inl e)
  | (tr, inr _) => (tr, inr tt)
  end.

(** [n] deliveries of the same request, each on the history left by the
    previous ones. *)
Fixpoint deliver (cachet : Cachet) (config : PrometheusCachetConfig) (authorization : string)
  (body : string + PrometheusAlert) (n : nat) (history : list Call) : list Call :=
  match n with
  | O => history
  | S n' => fst (SubmitAlert cachet config authorization body (deliver cachet config authorization body n' history))
  end.

(** A computation whose calls all satisfy [P], whatever the history. *)
Definition only_calls (P : Call -> Prop) {A} (m : M A) : Prop :=
  forall tr, exists new, fst (m tr) = tr ++ new /\ Forall P new.

(** A call that, if it is a create, carries [status] and [componentStatus]. *)
Definition creates_with (status componentStatus : Z) (c : Call) : Prop :=
  match c with
  | CCreateIncident _ _ s cs => s = status /\ cs = componentStatus
  | _ => True
  end.

(** The [alreadyFired] map left by the loop when no alert stops it. *)
Fixpoint mark_all (config : PrometheusCachetConfig) (list' : gmap string Z)
  (seen : gmap Z Z) (alerts : list PrometheusAlertDetail) : gmap Z Z :=
  match alerts with
  | [] => seen
  | a :: rest =>
      match list' !! label_value config a with
      | Some cid =>
          if go_lookup_int seen cid =? 0
          then mark_all config list' (<[cid := 1]> seen) rest
          else mark_all config list' seen rest
      | None => mark_all config list' seen rest
      end
  end.

(** A computation that issues at most [n] calls, whatever the history. *)
Definition at_most_calls (n : nat) {A} (m : M A) : Prop :=
  forall tr, exists new, fst (m tr) = tr ++ new /\ (length new <= n)%nat.

(** The component a call is about, if any. *)
Definition call_component (c : Call) : option Z :=
  match c with
  | CSearchIncidents cid => Some cid
  | CCreateIncident _ cid _ _ => Some cid
  | CUpdateIncident _ cid _ _ _ => Some cid
  | _ => None
  end.

Definition is_create (c : Call) : bool :=
  match c with CCreateIncident _ _ _ _ => true | _ => false end.

Definition is_update_or_read (c : Call) : bool :=
  match c with CUpdateIncident _ _ _ _ _ | CReadIncident _ => true | _ => false end.

(** ** [PrepareGinRouter] (webserver.go, lines 169-183)

    A router made by [gin.New()] with two routes, [GET /health] and
    [POST /alert]. The logger and recovery middlewares change no answer
    (nothing in the handlers panics). Gin's defaults decide the rest: a
    path matching a route of the method up to a trailing slash is
    redirected (301 for GET, 307 otherwise, [RedirectTrailingSlash]); any
    other request is answered 404 ([HandleMethodNotAllowed] is off). *)

Record Request := {
  Method : string;
  Path : string;
  AuthorizationHeader : string;
  Body : string + PrometheusAlert   (* the outcome of [c.ShouldBindJSON] *)
}.

Inductive GinResponse :=
| Written (r : Response)                     (* written by a handler *)
| Redirect (code : Z) (location : string)    (* trailing-slash redirect *)
| NotFound.                                  (* 404 page not found *)

Definition routes : list (string * string) := [("GET", "/health"); ("POST", "/alert")]%string.

Definition ends_with_slash (p : string) : bool :=
  match String.get (String.length p - 1) p with
  | Some c => Nat.ltb 1 (String.length p) && Ascii.eqb c "/"
  | None => false
  end.

(** The path with its trailing slash added or removed. *)
Definition toggle_slash (p : string) : string :=
  if ends_with_slash p then String.substring 0 (String.length p - 1) p else p +++ "/".

Definition tsr (method path : string) : bool :=
  existsb (fun r => String.eqb (fst r) method && String.eqb (snd r) (toggle_slash path)) routes.

Definition PrepareGinRouter (cachet : Cachet) (config : PrometheusCachetConfig)
  (req : Request) (history : list Call) : list Call * GinResponse :=
  if String.eqb (Method req) "GET" && String.eqb (Path req) "/health" then
    (history, Written StatusOK)
  else if String.eqb (Method req) "POST" && String.eqb (Path req) "/alert" then
    let '(h, r) := SubmitAlert cachet config (AuthorizationHeader req) (Body req) history in
    (h, Written r)
  else if tsr (Method req) (Path req) then
    (history, Redirect (if String.eqb (Method req) "GET" then 301 else 307) (toggle_slash (Path req)))
  else (history, NotFound).

(** The text of a time in the layout "2006-01-02 15:04:05", all fields
    zero-padded, built from decimal digits. *)
Definition digit (k : Z) : ascii := ascii_of_nat (Z.to_nat (48 + k)).

Definition render (year month day hour min sec : Z) : string :=
  string_of_list_ascii
    [digit (year / 1000); digit (year / 100 mod 10); digit (year / 10 mod 10); digit (year mod 10);
     "-"%char; digit (month / 10); digit (month mod 10);
     "-"%char; digit (day / 10); digit (day mod 10);
     " "%char; digit (hour / 10); digit (hour mod 10);
     ":"%char; digit (min / 10); digit (min mod 10);
     ":"%char; digit (sec / 10); digit (sec mod 10)].

(** * Properties *)

Section Laws.
Variable cachet : Cachet.
Variable config : PrometheusCachetConfig.

Lemma bind_ret_l {A B} (a : A) (k : A -> M B) tr : bind (ret a) k tr = k a tr.
Proof. reflexivity. Qed.

Lemma process_alerts_cons list' st cst af a rest tr :
  process_alerts cachet config list' st cst af (a :: rest) tr =
  bind (process_alert cachet config list' st cst af a)
       (fun af' => process_alerts cachet config list' st cst af' rest) tr.
Proof. reflexivity. Qed.

Lemma go_lookup_int_insert_eq (af : gmap Z Z) cid v : go_lookup_int (<[cid := v]> af) cid = v.
Proof. unfold go_lookup_int. by rewrite lookup_insert_eq. Qed.

Lemma go_lookup_int_insert_ne (af : gmap Z Z) cid cid' v :
  cid <> cid' -> go_lookup_int (<[cid := v]> af) cid' = go_lookup_int af cid'.
Proof. intros Hne. unfold go_lookup_int. by rewrite lookup_insert_ne. Qed.

(** The resolved branch of squash mode once the search has found incidents. *)
Lemma squash_resolved_found a cid st tr i0 rest :
  SearchIncidents cachet tr cid = (i0 :: rest, None) ->
  let name := label_value config a in
  let tr1 := tr ++ [CSearchIncidents cid; CUpdateIncident name cid (Id i0) st (up_message name)] in
  squash_resolved cachet config a cid st tr =
  match ReadIncident cachet tr1 (Id i0) with
  | (incident, None) =>
      match GoTime.ParseLayout (CreatedAt incident), GoTime.ParseLayout (UpdatedAt incident) with
      | Some c, Some u =>
          (tr1 ++ [CReadIncident (Id i0);
                   CUpdateIncident name cid (Id i0) st
                     (up_message_with_downtime name (GoTime.int_of_float64 (GoTime.Minutes (GoTime.Sub u c))))],
           inr tt)
      | _, _ => (tr1 ++ [CReadIncident (Id i0)], inr tt)
      end
  | (_, Some _) => (tr1 ++ [CReadIncident (Id i0)], inr tt)
  end.
Proof.
  intros Hsearch name tr1.
  unfold squash_resolved, bind, searchIncidents, updateIncident, readIncident, issue.
  cbn [fst snd]. rewrite Hsearch.
  replace ((tr ++ [CSearchIncidents cid]) ++ [CUpdateIncident (label_value config a) cid (Id i0) st
            (up_message (label_value config a))]) with tr1
    by (subst tr1 name; by rewrite <- app_assoc).
  destruct (ReadIncident cachet tr1 (Id i0)) as [incident [e|]]; [reflexivity|].
  destruct (GoTime.ParseLayout (CreatedAt incident)), (GoTime.ParseLayout (UpdatedAt incident));
    try reflexivity.
  cbn. by rewrite <- ?app_assoc.
Qed.
End Laws.

Section FirstSeen.
Variable cachet : Cachet.
Variable config : PrometheusCachetConfig.
Variable list' : gmap string Z.
Variables status componentStatus : Z.

Lemma bind_forget {A B} (m : M A) (k : M B) tr :
  bind m (fun _ => k) tr =
  match forget_result (m tr) with
  | (tr', inl r) => (tr', inl r)
  | (tr', inr _) => k tr'
  end.
Proof. unfold bind. by destruct (m tr) as [tr' [r|x]]. Qed.

(** The loop runs [fire] on the first-seen components, in order. *)
Lemma process_alerts_first_seen (alerts : list PrometheusAlertDetail) :
  forall (af : gmap Z Z) tr,
    forget_result (process_alerts cachet config list' status componentStatus af alerts tr) =
    run_fires cachet config status componentStatus (first_seen config list' af alerts) tr.
Proof.
  induction alerts as [|a rest IH]; intros af tr; [reflexivity|].
  rewrite process_alerts_cons. cbn [first_seen]. unfold process_alert.
  destruct (list' !! label_value config a) as [cid|]; [|apply IH].
  destruct (go_lookup_int af cid =? 0); [|apply IH].
  cbn [run_fires]. unfold bind.
  destruct (fire cachet config a cid status componentStatus tr) as [tr' [r|[]]];
    [reflexivity|apply IH].
Qed.

Lemma first_seen_fresh (alerts : list PrometheusAlertDetail) :
  forall (af : gmap Z Z),
    Forall (fun p => go_lookup_int af (snd p) = 0) (first_seen config list' af alerts).
Proof.
  induction alerts as [|a rest IH]; intros af; cbn [first_seen]; [constructor|].
  destruct (list' !! label_value config a) as [cid|]; [|apply IH].
  destruct (go_lookup_int af cid =? 0) eqn:Hfirst; [|apply IH].
  constructor; [cbn; lia|].
  eapply Forall_impl; [apply IH|]. intros [a' cid'] H. cbn in *.
  destruct (Z.eq_dec cid cid') as [->|Hne].
  - rewrite go_lookup_int_insert_eq in H. discriminate.
  - by rewrite go_lookup_int_insert_ne in H.
Qed.

Lemma first_seen_nodup (alerts : list PrometheusAlertDetail) :
  forall (af : gmap Z Z), NoDup (map snd (first_seen config list' af alerts)).
Proof.
  induction alerts as [|a rest IH]; intros af; cbn [first_seen]; [constructor|].
  destruct (list' !! label_value config a) as [cid|]; [|apply IH].
  destruct (go_lookup_int af cid =? 0); [|apply IH].
  cbn [map]. constructor; [|apply IH].
  intros Hin. apply list_elem_of_In, in_map_iff in Hin as [[a' cid'] [Heq Hin]].
  cbn in Heq. subst cid'.
  pose proof (first_seen_fresh rest (<[cid := 1]> af)) as Hfresh.
  rewrite Forall_forall in Hfresh. specialize (Hfresh _ (proj2 (list_elem_of_In _ _) Hin)). cbn in Hfresh.
  rewrite go_lookup_int_insert_eq in Hfresh. discriminate.
Qed.
End FirstSeen.

Section Calls.
Variable P : Call -> Prop.

Lemma only_calls_ret {A} (a : A) : only_calls P (ret a).
Proof. intros tr. exists []. split; [by rewrite app_nil_r | constructor]. Qed.

Lemma only_calls_respond {A} r : only_calls P (@respond A r).
Proof. intros tr. exists []. split; [by rewrite app_nil_r | constructor]. Qed.

Lemma only_calls_issue {A} c (answer : list Call -> A) : P c -> only_calls P (issue c answer).
Proof. intros Hc tr. exists [c]. split; [reflexivity | by constructor]. Qed.

Lemma only_calls_bind {A B} (m : M A) (k : A -> M B) :
  only_calls P m -> (forall a, only_calls P (k a)) -> only_calls P (bind m k).
Proof.
  intros Hm Hk tr. unfold bind.
  destruct (Hm tr) as [new1 [Hfst1 Hall1]].
  destruct (m tr) as [tr1 [r|a]]; cbn in Hfst1; subst tr1.
  - by exists new1.
  - destruct (Hk a (tr ++ new1)) as [new2 [Hfst2 Hall2]].
    exists (new1 ++ new2). rewrite Hfst2, app_assoc. split; [reflexivity|].
    by apply Forall_app.
Qed.
End Calls.

Ltac only_calls_step :=
  match goal with
  | |- only_calls _ (ret _) => apply only_calls_ret
  | |- only_calls _ (respond _) => apply only_calls_respond
  | |- only_calls _ (bind _ _) => apply only_calls_bind; [|intros ?]
  | |- only_calls _ (issue _ _) => apply only_calls_issue; cbn; try tauto
  | |- only_calls _ (match ?x with _ => _ end) => destruct x
  end.

Section Creates.
Variable cachet : Cachet.
Variable config : PrometheusCachetConfig.
Variable st : Z.

Lemma fire_creates_with a cid : only_calls (creates_with st st) (fire cachet config a cid st st).
Proof.
  unfold fire, squash_firing, squash_resolved, create_new_incident,
    searchIncidents, createIncident, updateIncident, readIncident.
  repeat only_calls_step.
Qed.

Lemma process_alerts_creates_with list' alerts :
  forall af, only_calls (creates_with st st) (process_alerts cachet config list' st st af alerts).
Proof.
  induction alerts as [|a rest IH]; intros af; cbn [process_alerts]; [apply only_calls_ret|].
  apply only_calls_bind; [|intros af'; apply IH].
  unfold process_alert. repeat only_calls_step; apply fire_creates_with.
Qed.
End Creates.

Lemma derive_status_diag (config : PrometheusCachetConfig) (body : PrometheusAlert) :
  derive_status body = (fst (derive_status body), fst (derive_status body)).
Proof. unfold derive_status. by destruct (String.eqb _ _). Qed.

Lemma repeat_snoc {A} (x : A) n : repeat x (S n) = repeat x n ++ [x].
Proof. induction n as [|n IH]; [reflexivity|]. cbn in *. by rewrite IH. Qed.

Module Claims.

(** C4: in squash mode with a resolved group, a first-seen component whose
    incident search succeeds with no incident ends the loop with an error
    naming the component: only the search call is issued for it, no create
    or update, and no later alert of the batch is looked at. The message
    contains the component id. *)
Theorem resolved_without_incident_fails (cachet : Cachet) (config : PrometheusCachetConfig)
  (list' : gmap string Z) (cst : Z) (af : gmap Z Z) (a : PrometheusAlertDetail)
  (rest : list PrometheusAlertDetail) (tr : list Call) (cid : Z)
  (Hsquash : SquashIncident config = true)
  (Hcid : list' !! label_value config a = Some cid)
  (Hfirst : go_lookup_int af cid = 0)
  (Hsearch : SearchIncidents cachet tr cid = ([], None)) :
  process_alerts cachet config list' 1 cst af (a :: rest) tr =
    (tr ++ [CSearchIncidents cid], inl (BadRequest (no_incident_message cid)))
  /\ exists pre suf, no_incident_message cid = pre +++ itoa cid +++ suf.
Proof.
  split.
  - rewrite process_alerts_cons. unfold process_alert.
    rewrite Hcid, Hfirst. cbn [Z.eqb].
    unfold fire. rewrite Hsquash. change (negb (1 =? 1)) with false. cbv iota.
    unfold squash_resolved, bind, searchIncidents, issue. cbv beta iota. cbn [fst snd].
    rewrite Hsearch. reflexivity.
  - exists "No incident found for component "%string, newline. reflexivity.
Qed.

Lemma resolved_without_incident_fails_witness :
  Page.search [CListComponents] 42 = [] /\
  process_alerts Page.page Page.squash_config Page.directory 1 1 ∅ [Page.alert_of "api"]
    [CListComponents] =
    ([CListComponents; CSearchIncidents 42], inl (BadRequest (no_incident_message 42))).
Proof.
  split; [reflexivity|].
  exact (proj1 (resolved_without_incident_fails Page.page Page.squash_config Page.directory 1 ∅
                  (Page.alert_of "api") [] [CListComponents] 42
                  eq_refl eq_refl eq_refl eq_refl)).
Defined.

(** C5: in squash mode with a resolved group, once the search has found
    incidents, the most recent one is updated, then re-read; when the read
    succeeds and both of its timestamps parse under "2006-01-02 15:04:05",
    exactly one second update follows, whose message carries
    [int(updatedAt.Sub(createdAt).Minutes())]; when either fails to parse,
    no second update is issued. No error is reported either way. *)
Theorem resolved_downtime_update (cachet : Cachet) (config : PrometheusCachetConfig)
  (a : PrometheusAlertDetail) (cid cst : Z) (tr : list Call) (i0 : Incident)
  (rest : list Incident) (incident : Incident)
  (Hsquash : SquashIncident config = true)
  (Hsearch : SearchIncidents cachet tr cid = (i0 :: rest, None))
  (Hread : ReadIncident cachet
             (tr ++ [CSearchIncidents cid;
                     CUpdateIncident (label_value config a) cid (Id i0) 1
                       (up_message (label_value config a))]) (Id i0) = (incident, None)) :
  let name := label_value config a in
  let tr1 := tr ++ [CSearchIncidents cid; CUpdateIncident name cid (Id i0) 1 (up_message name);
                    CReadIncident (Id i0)] in
  (forall createdAt updatedAt,
     GoTime.ParseLayout (CreatedAt incident) = Some createdAt ->
     GoTime.ParseLayout (UpdatedAt incident) = Some updatedAt ->
     fire cachet config a cid 1 cst tr =
       (tr1 ++ [CUpdateIncident name cid (Id i0) 1
                  (up_message_with_downtime name
                     (GoTime.int_of_float64 (GoTime.Minutes (GoTime.Sub updatedAt createdAt))))],
        inr tt))
  /\ (GoTime.ParseLayout (CreatedAt incident) = None \/
      GoTime.ParseLayout (UpdatedAt incident) = None ->
      fire cachet config a cid 1 cst tr = (tr1, inr tt)).
Proof.
  intros name tr1.
  assert (Hfire : fire cachet config a cid 1 cst tr = squash_resolved cachet config a cid 1 tr)
    by (unfold fire; now rewrite Hsquash).
  rewrite Hfire, (squash_resolved_found cachet config a cid 1 tr i0 rest Hsearch).
  cbv zeta. rewrite Hread. subst tr1 name.
  split.
  - intros c u Hc Hu. rewrite Hc, Hu. by rewrite <- ?app_assoc.
  - intros [Hc|Hu].
    + rewrite Hc. by rewrite <- ?app_assoc.
    + rewrite Hu. destruct (GoTime.ParseLayout (CreatedAt incident)); by rewrite <- ?app_assoc.
Qed.

Definition created_history : list Call :=
  [CListComponents; CSearchIncidents 42; CCreateIncident "api" 42 4 4; CListComponents].

Definition open_incident : Incident :=
  {| Id := 2; IncStatus := 4; CreatedAt := Page.created; UpdatedAt := Page.updated |}.

Definition closed_incident : Incident :=
  {| Id := 2; IncStatus := 1; CreatedAt := Page.created; UpdatedAt := Page.updated |}.

Lemma resolved_downtime_update_witness :
  Page.search created_history 42 = [open_incident] /\
  fire Page.page Page.squash_config (Page.alert_of "api") 42 1 1 created_history =
    (created_history ++
       [CSearchIncidents 42; CUpdateIncident "api" 42 2 1 (up_message "api"); CReadIncident 2;
        CUpdateIncident "api" 42 2 1 (up_message_with_downtime "api" 60)], inr tt).
Proof.
  split; [reflexivity|].
  destruct (resolved_downtime_update Page.page Page.squash_config (Page.alert_of "api") 42 1
              created_history open_incident [] closed_incident
              eq_refl ltac:(vm_compute; reflexivity) ltac:(vm_compute; reflexivity))
    as [Hparse _].
  rewrite (Hparse _ _ eq_refl eq_refl). vm_compute. reflexivity.
Defined.

(** C7: an alert whose label value is not in the component directory is
    skipped: no call, no error, and the loop goes on with the next alert
    as if it were absent. *)
Theorem unknown_component_skipped (cachet : Cachet) (config : PrometheusCachetConfig)
  (list' : gmap string Z) (st cst : Z) (af : gmap Z Z) (a : PrometheusAlertDetail)
  (rest : list PrometheusAlertDetail)
  (Hnone : list' !! label_value config a = None) :
  forall tr, process_alerts cachet config list' st cst af (a :: rest) tr =
             process_alerts cachet config list' st cst af rest tr.
Proof.
  intros tr. rewrite process_alerts_cons. unfold bind at 1, process_alert.
  now rewrite Hnone.
Qed.

Lemma unknown_component_skipped_witness :
  process_alerts Page.page Page.squash_config Page.directory 4 4 ∅
    [Page.alert_of "web"; Page.alert_of "api"] [CListComponents] =
  process_alerts Page.page Page.squash_config Page.directory 4 4 ∅
    [Page.alert_of "api"] [CListComponents].
Proof.
  apply (unknown_component_skipped Page.page Page.squash_config Page.directory 4 4 ∅
           (Page.alert_of "web") [Page.alert_of "api"]).
  vm_compute. reflexivity.
Defined.

(** C9: in the resolved branch of squash mode, when the search succeeds
    with incidents, the re-test of [err] cannot fail: the first update of
    the most recent incident is issued right after the search, and the
    branch ends without an error. *)
Theorem resolved_first_update_issued (cachet : Cachet) (config : PrometheusCachetConfig)
  (a : PrometheusAlertDetail) (cid st : Z) (tr : list Call) (i0 : Incident)
  (rest : list Incident)
  (Hsearch : SearchIncidents cachet tr cid = (i0 :: rest, None)) :
  exists suffix,
    squash_resolved cachet config a cid st tr =
      (tr ++ [CSearchIncidents cid;
              CUpdateIncident (label_value config a) cid (Id i0) st
                (up_message (label_value config a))] ++ suffix, inr tt).
Proof.
  rewrite (squash_resolved_found cachet config a cid st tr i0 rest Hsearch). cbv zeta.
  destruct (ReadIncident _ _ _) as [incident [e|]].
  - eexists. by rewrite <- ?app_assoc.
  - destruct (GoTime.ParseLayout (CreatedAt incident)), (GoTime.ParseLayout (UpdatedAt incident));
      eexists; by rewrite <- ?app_assoc.
Qed.

Lemma resolved_first_update_issued_witness :
  Page.search created_history 42 = [open_incident] /\
  exists suffix,
    squash_resolved Page.page Page.squash_config (Page.alert_of "api") 42 1 created_history =
      (created_history ++ [CSearchIncidents 42; CUpdateIncident "api" 42 2 1 (up_message "api")]
         ++ suffix, inr tt).
Proof.
  split; [reflexivity|].
  exact (resolved_first_update_issued Page.page Page.squash_config (Page.alert_of "api") 42 1
           created_history open_incident [] ltac:(vm_compute; reflexivity)).
Defined.

(** C10: an alert without the configured label is resolved through the
    empty label value: it is skipped when the directory has no entry for
    [""], and otherwise processed like any first-seen alert, with [""] as
    the incident name. *)
Theorem missing_label_is_empty (cachet : Cachet) (config : PrometheusCachetConfig)
  (list' : gmap string Z) (st cst : Z) (af : gmap Z Z) (a : PrometheusAlertDetail)
  (rest : list PrometheusAlertDetail)
  (Hmissing : Labels a !! LabelName config = None) :
  label_value config a = ""%string /\
  (list' !! ""%string = None ->
   forall tr, process_alerts cachet config list' st cst af (a :: rest) tr =
              process_alerts cachet config list' st cst af rest tr) /\
  (forall cid, list' !! ""%string = Some cid -> go_lookup_int af cid = 0 ->
   forall tr, process_alerts cachet config list' st cst af (a :: rest) tr =
              bind (fire cachet config a cid st cst)
                   (fun _ => process_alerts cachet config list' st cst (<[cid := 1]> af) rest) tr).
Proof.
  assert (Hlabel : label_value config a = ""%string)
    by (unfold label_value, go_lookup_string; now rewrite Hmissing).
  split; [exact Hlabel|]. split.
  - intros Hnone tr. rewrite process_alerts_cons. unfold bind at 1, process_alert.
    now rewrite Hlabel, Hnone.
  - intros cid Hcid Hfirst tr. rewrite process_alerts_cons. unfold process_alert.
    rewrite Hlabel, Hcid, Hfirst. cbn [Z.eqb].
    unfold bind. destruct (fire cachet config a cid st cst tr) as [tr' [r|u]]; reflexivity.
Qed.

Definition unlabelled : PrometheusAlertDetail :=
  {| Labels := <["instance" := "db-1"]> ∅; Annotations := ∅; StartAt := ""; EndsAt := "" |}.

Lemma missing_label_is_empty_witness :
  label_value Page.plain_config unlabelled = ""%string /\
  process_alerts Page.page Page.plain_config (<[""%string := 7]> ∅) 4 4 ∅ [unlabelled] [] =
    bind (fire Page.page Page.plain_config unlabelled 7 4 4)
         (fun _ => process_alerts Page.page Page.plain_config (<[""%string := 7]> ∅) 4 4
                     (<[7 := 1]> ∅) []) [].
Proof.
  destruct (missing_label_is_empty Page.page Page.plain_config (<[""%string := 7]> ∅) 4 4 ∅
              unlabelled [] eq_refl) as [H1 [_ H3]].
  split; [exact H1|].
  exact (H3 7 eq_refl eq_refl []).
Defined.

(** C6: within one invocation each component is processed at most once:
    the loop does exactly the work of [fire] on the first-seen components,
    in order, and these components are pairwise distinct and not already
    marked; a later alert resolving to a processed component does nothing. *)
Theorem component_processed_once (cachet : Cachet) (config : PrometheusCachetConfig)
  (list' : gmap string Z) (st cst : Z) (af : gmap Z Z) (alerts : list PrometheusAlertDetail) :
  (forall tr, forget_result (process_alerts cachet config list' st cst af alerts tr) =
              run_fires cachet config st cst (first_seen config list' af alerts) tr)
  /\ NoDup (map snd (first_seen config list' af alerts))
  /\ Forall (fun p => go_lookup_int af (snd p) = 0) (first_seen config list' af alerts).
Proof.
  split; [|split].
  - apply process_alerts_first_seen.
  - apply first_seen_nodup.
  - apply first_seen_fresh.
Qed.

(** C8: without squash mode (and with creates that succeed), the loop
    issues exactly one create per first-seen component, with the derived
    statuses, and no search; so [n] deliveries of a one-alert firing group
    for a known component issue [n] creates. *)
Theorem no_squash_always_creates (cachet : Cachet) (config : PrometheusCachetConfig)
  (list' : gmap string Z) (st cst : Z) (af : gmap Z Z) (alerts : list PrometheusAlertDetail)
  (Hplain : SquashIncident config = false)
  (Hcreate : forall tr name cid s cs, CreateIncident cachet tr name cid s cs = None) :
  (forall tr,
     forget_result (process_alerts cachet config list' st cst af alerts tr) =
     (tr ++ map (fun p => CCreateIncident (label_value config (fst p)) (snd p) st cst)
               (first_seen config list' af alerts), inr tt))
  /\ (forall (body : PrometheusAlert) (a : PrometheusAlertDetail) (dir : gmap string Z) cid n history,
        PrometheusToken config = ""%string ->
        (forall tr, ListComponents cachet tr = (dir, None)) ->
        Alerts body = [a] ->
        dir !! label_value config a = Some cid ->
        deliver cachet config "" (inr body) n history =
        history ++ concat (repeat [CListComponents;
                                   CCreateIncident (label_value config a) cid
                                     (fst (derive_status body)) (fst (derive_status body))] n)).
Proof.
  assert (Hrun : forall st cst l tr,
             run_fires cachet config st cst l tr =
             (tr ++ map (fun p => CCreateIncident (label_value config (fst p)) (snd p) st cst) l,
              inr tt)).
  { intros st' cst' l. induction l as [|[a cid] l IH]; intros tr.
    - cbn. by rewrite app_nil_r.
    - cbn [run_fires]. unfold bind, fire. rewrite Hplain.
      unfold create_new_incident, bind, createIncident, issue. cbn [fst snd].
      rewrite Hcreate. cbn. rewrite IH. by rewrite <- app_assoc. }
  split.
  - intros tr. rewrite process_alerts_first_seen. apply Hrun.
  - intros body a dir cid n history Htoken Hlist Halerts Hdir.
    induction n as [|n IH]; [by rewrite app_nil_r|].
    cbn [deliver]. rewrite IH. unfold SubmitAlert. rewrite Htoken. cbn [String.eqb negb andb].
    unfold handle. rewrite (derive_status_diag config body).
    unfold bind at 1, listComponents, issue. cbn [fst snd]. rewrite Hlist.
    rewrite bind_forget, process_alerts_first_seen, Halerts, Hrun.
    cbn [first_seen]. rewrite Hdir.
    rewrite repeat_snoc, concat_app. cbn. by rewrite <- !app_assoc.
Qed.

Lemma no_squash_always_creates_witness :
  Page.search [] 42 = [] /\
  deliver Page.page Page.plain_config "" (inr (Page.group "firing" [Page.alert_of "api"])) 3%nat [] =
    concat (repeat [CListComponents; CCreateIncident "api" 42 4 4] 3%nat).
Proof.
  split; [reflexivity|].
  destruct (no_squash_always_creates Page.page Page.plain_config Page.directory 4 4 ∅ []
              eq_refl (fun _ _ _ _ _ => eq_refl)) as [_ Hn].
  exact (Hn (Page.group "firing" [Page.alert_of "api"]) (Page.alert_of "api") Page.directory 42 3%nat []
            eq_refl (fun _ => eq_refl) eq_refl eq_refl).
Defined.

(** C3 as stated: a status other than "resolved" derives the firing code 4. *)
Lemma status_other_than_resolved_counterexample :
  Status (Page.group "pending" []) <> "resolved"%string /\
  fst (derive_status (Page.group "pending" [])) = 1.
Proof. split; [discriminate | reflexivity]. Qed.

(** C3, amended: the derived code is 4 exactly when the status field is
    "firing" and 1 for any other value, "resolved" included; every create
    issued by the handler carries that one code as both its incident
    status and its component status. *)
Theorem status_code_derivation (cachet : Cachet) (config : PrometheusCachetConfig)
  (body : PrometheusAlert) :
  derive_status body =
    (if String.eqb (Status body) "firing" then 4 else 1,
     if String.eqb (Status body) "firing" then 4 else 1)
  /\ only_calls (creates_with (fst (derive_status body)) (fst (derive_status body)))
                (handle cachet config body).
Proof.
  split; [unfold derive_status; by destruct (String.eqb _ _)|].
  unfold handle. rewrite (derive_status_diag config body). cbv iota beta.
  unfold listComponents.
  apply only_calls_bind; [apply only_calls_issue; exact I | intros [list' err]].
  destruct err as [e|]; [apply only_calls_respond|].
  apply only_calls_bind; [apply process_alerts_creates_with | intros; apply only_calls_ret].
Qed.

(** C1 (squash mode, firing): a create is issued when the newest incident
    has status 4, the status the handler itself gives a firing incident,
    and not when it has status 1; so a second firing delivery while the
    first incident is open creates a duplicate, and a firing delivery after
    a resolved one creates nothing. *)
Theorem squash_firing_status_check :
  deliver Page.page Page.squash_config "" (inr (Page.group "firing" [Page.alert_of "api"])) 2%nat [] =
    [CListComponents; CSearchIncidents 42; CCreateIncident "api" 42 4 4;
     CListComponents; CSearchIncidents 42; CCreateIncident "api" 42 4 4]
  /\ (let h := deliver Page.page Page.squash_config "" (inr (Page.group "resolved" [Page.alert_of "api"])) 1%nat
                 (deliver Page.page Page.squash_config "" (inr (Page.group "firing" [Page.alert_of "api"])) 1%nat []) in
      Page.search h 42 = [closed_incident] /\
      SubmitAlert Page.page Page.squash_config "" (inr (Page.group "firing" [Page.alert_of "api"])) h =
        (h ++ [CListComponents; CSearchIncidents 42], StatusOK)).
Proof. split; vm_compute; [reflexivity | split; reflexivity]. Qed.

(** C2 (errors of updates and reads): in the resolved branch of squash
    mode, failing updates and a failing read are not reported; the
    request answers OK. *)
Theorem squash_resolved_ignores_errors :
  SubmitAlert Page.page_update_fails Page.squash_config ""
    (inr (Page.group "resolved" [Page.alert_of "api"])) created_history =
    (created_history ++
       [CListComponents; CSearchIncidents 42; CUpdateIncident "api" 42 2 1 (up_message "api");
        CReadIncident 2; CUpdateIncident "api" 42 2 1 (up_message_with_downtime "api" 60)],
     StatusOK)
  /\ SubmitAlert Page.page_read_fails Page.squash_config ""
       (inr (Page.group "resolved" [Page.alert_of "api"])) created_history =
    (created_history ++
       [CListComponents; CSearchIncidents 42; CUpdateIncident "api" 42 2 1 (up_message "api");
        CReadIncident 2],
     StatusOK).
Proof. split; vm_compute; reflexivity. Qed.

End Claims.

Section MoreLaws.

Lemma only_calls_weaken (P Q : Call -> Prop) {A} (m : M A) :
  (forall c, P c -> Q c) -> only_calls P m -> only_calls Q m.
Proof.
  intros HPQ Hm tr. destruct (Hm tr) as [new [Heq Hall]].
  exists new. split; [exact Heq|]. eapply Forall_impl; [exact Hall|exact HPQ].
Qed.

Lemma fire_component (cachet : Cachet) (config : PrometheusCachetConfig) a cid st cst :
  only_calls (fun c => forall x, call_component c = Some x -> x = cid)
             (fire cachet config a cid st cst).
Proof.
  unfold fire, squash_firing, squash_resolved, create_new_incident,
    searchIncidents, createIncident, updateIncident, readIncident.
  repeat only_calls_step.
  all: intros ? Hx; cbn in Hx; congruence.
Qed.

Lemma at_most_ret {A} n (a : A) : at_most_calls n (ret a).
Proof. intros tr. exists []. split; [by rewrite app_nil_r | cbn; lia]. Qed.

Lemma at_most_bind {A B} n k (m : M A) (f : A -> M B) :
  at_most_calls n m -> (forall a, at_most_calls k (f a)) -> at_most_calls (n + k) (bind m f).
Proof.
  intros Hm Hf tr. unfold bind.
  destruct (Hm tr) as [new1 [Hfst1 Hlen1]].
  destruct (m tr) as [tr1 [r|a]]; cbn in Hfst1; subst tr1.
  - exists new1. split; [reflexivity | lia].
  - destruct (Hf a (tr ++ new1)) as [new2 [Hfst2 Hlen2]].
    exists (new1 ++ new2). rewrite Hfst2, app_assoc. split; [reflexivity|].
    rewrite length_app. lia.
Qed.

Lemma fire_at_most_4 (cachet : Cachet) (config : PrometheusCachetConfig) a cid st cst :
  at_most_calls 4 (fire cachet config a cid st cst).
Proof.
  intros tr.
  unfold fire, squash_firing, squash_resolved, create_new_incident, bind, respond, ret,
    searchIncidents, createIncident, updateIncident, readIncident, issue.
  repeat (case_match; cbn [fst snd]);
    eexists; (split; [rewrite <- ?app_assoc; reflexivity | cbn; lia]).
Qed.

Lemma process_alerts_at_most (cachet : Cachet) (config : PrometheusCachetConfig) list' st cst alerts :
  forall af, at_most_calls (4 * length alerts) (process_alerts cachet config list' st cst af alerts).
Proof.
  induction alerts as [|a rest IH]; intros af; [apply at_most_ret|].
  cbn [process_alerts length]. replace (4 * S (length rest))%nat with (4 + 4 * length rest)%nat by lia.
  apply at_most_bind; [|intros; apply IH].
  unfold process_alert. case_match; [|apply at_most_ret].
  case_match; [|apply at_most_ret].
  replace 4%nat with (4 + 0)%nat by lia.
  apply at_most_bind; [apply fire_at_most_4 | intros; apply at_most_ret].
Qed.

Lemma mark_all_keeps (config : PrometheusCachetConfig) list' alerts :
  forall (seen : gmap Z Z) cid, go_lookup_int seen cid <> 0 ->
  go_lookup_int (mark_all config list' seen alerts) cid <> 0.
Proof.
  induction alerts as [|a rest IH]; intros seen cid H; cbn [mark_all]; [exact H|].
  repeat case_match; apply IH; try exact H.
  destruct (Z.eq_dec cid z) as [->|Hne].
  - by rewrite go_lookup_int_insert_eq.
  - by rewrite go_lookup_int_insert_ne.
Qed.

Lemma mark_all_marks (config : PrometheusCachetConfig) list' alerts :
  forall (seen : gmap Z Z) a cid, In a alerts -> list' !! label_value config a = Some cid ->
  go_lookup_int (mark_all config list' seen alerts) cid <> 0.
Proof.
  induction alerts as [|a0 rest IH]; intros seen a cid Hin Hcid; [destruct Hin|].
  destruct Hin as [<-|Hin]; cbn [mark_all].
  - rewrite Hcid. destruct (go_lookup_int seen cid =? 0) eqn:Hz.
    + apply mark_all_keeps. rewrite go_lookup_int_insert_eq. lia.
    + apply mark_all_keeps. apply Z.eqb_neq. exact Hz.
  - repeat case_match; eapply IH; eauto.
Qed.

Lemma first_seen_app (config : PrometheusCachetConfig) list' l1 l2 :
  forall (seen : gmap Z Z),
  first_seen config list' seen (l1 ++ l2) =
  first_seen config list' seen l1 ++ first_seen config list' (mark_all config list' seen l1) l2.
Proof.
  induction l1 as [|a rest IH]; intros seen; [reflexivity|].
  cbn [app first_seen mark_all]. repeat case_match; rewrite ?IH; reflexivity.
Qed.

Lemma first_seen_all_marked (config : PrometheusCachetConfig) list' l :
  forall (seen : gmap Z Z),
  (forall a cid, In a l -> list' !! label_value config a = Some cid -> go_lookup_int seen cid <> 0) ->
  first_seen config list' seen l = [].
Proof.
  induction l as [|a rest IH]; intros seen H; [reflexivity|].
  cbn [first_seen]. destruct (list' !! label_value config a) as [cid|] eqn:Hcid.
  - destruct (go_lookup_int seen cid =? 0) eqn:Hz.
    + exfalso. apply (H a cid (or_introl eq_refl) Hcid). by apply Z.eqb_eq.
    + apply IH. intros; eapply H; [right|]; eauto.
  - apply IH. intros; eapply H; [right|]; eauto.
Qed.

End MoreLaws.

Section ParseRender.

Lemma digit_ok k : 0 <= k <= 9 ->
  GoTime.is_digit (digit k) = true /\ GoTime.digit_val (digit k) = k.
Proof.
  intros Hk.
  assert (k = 0 \/ k = 1 \/ k = 2 \/ k = 3 \/ k = 4 \/ k = 5 \/ k = 6 \/ k = 7 \/ k = 8 \/ k = 9)
    as Hcases by lia.
  repeat destruct Hcases as [->|Hcases]; subst; split; reflexivity.
Qed.

Lemma getnum_two n rest fixed : 0 <= n <= 99 ->
  GoTime.getnum (digit (n / 10) :: digit (n mod 10) :: rest) fixed = Some (n, rest).
Proof.
  intros Hn.
  destruct (digit_ok (n / 10)) as [H1 V1]; [Z.div_mod_to_equations; lia|].
  destruct (digit_ok (n mod 10)) as [H2 V2]; [pose proof (Z.mod_pos_bound n 10); lia|].
  cbn [GoTime.getnum]. rewrite H1, H2, V1, V2. f_equal. f_equal. Z.div_mod_to_equations; lia.
Qed.

Lemma atoi_four y : 0 <= y <= 9999 ->
  GoTime.atoi_digits [digit (y / 1000); digit (y / 100 mod 10); digit (y / 10 mod 10); digit (y mod 10)] 0
  = Some y.
Proof.
  intros Hy.
  destruct (digit_ok (y / 1000)) as [H1 V1]; [Z.div_mod_to_equations; lia|].
  destruct (digit_ok (y / 100 mod 10)) as [H2 V2]; [pose proof (Z.mod_pos_bound (y / 100) 10); lia|].
  destruct (digit_ok (y / 10 mod 10)) as [H3 V3]; [pose proof (Z.mod_pos_bound (y / 10) 10); lia|].
  destruct (digit_ok (y mod 10)) as [H4 V4]; [pose proof (Z.mod_pos_bound y 10); lia|].
  cbn [GoTime.atoi_digits]. rewrite H1, H2, H3, H4, V1, V2, V3, V4. f_equal. Z.div_mod_to_equations; lia.
Qed.

Lemma cutspace_space rest : GoTime.cutspace (" "%char :: rest) = GoTime.cutspace rest.
Proof. reflexivity. Qed.

Lemma cutspace_digit k rest : 0 <= k <= 9 -> GoTime.cutspace (digit k :: rest) = digit k :: rest.
Proof.
  intros Hk.
  assert (k = 0 \/ k = 1 \/ k = 2 \/ k = 3 \/ k = 4 \/ k = 5 \/ k = 6 \/ k = 7 \/ k = 8 \/ k = 9)
    as Hcases by lia.
  repeat destruct Hcases as [->|Hcases]; subst; reflexivity.
Qed.

End ParseRender.

Section SubmitLaws.
Variable cachet : Cachet.
Variable config : PrometheusCachetConfig.

Lemma submit_accepted auth body history :
  PrometheusToken config = ""%string \/ auth = ("Bearer " +++ PrometheusToken config) ->
  SubmitAlert cachet config auth body history =
  match body with
  | inl e => (history, BadRequest e)
  | inr alerts =>
      match handle cachet config alerts history with
      | (tr, inl r) => (tr, r)
      | (tr, inr r) => (tr, r)
      end
  end.
Proof.
  intros Hacc. unfold SubmitAlert.
  destruct Hacc as [Ht|Ha].
  - rewrite Ht. reflexivity.
  - rewrite Ha, String.eqb_refl. rewrite andb_false_r. reflexivity.
Qed.

Lemma handle_at_most alerts :
  at_most_calls (1 + 4 * length (Alerts alerts)) (handle cachet config alerts).
Proof.
  unfold handle. destruct (derive_status alerts) as [st cst].
  apply at_most_bind.
  - intros tr. exists [CListComponents]. split; [reflexivity | cbn; lia].
  - intros [list' [e|]].
    + intros tr. exists []. split; [by rewrite app_nil_r | cbn; lia].
    + rewrite <- (Nat.add_0_r (4 * length (Alerts alerts))).
      apply at_most_bind; [apply process_alerts_at_most | intros; apply at_most_ret].
Qed.

Lemma process_alerts_in_directory list' st cst alerts :
  forall af,
  only_calls (fun c => forall cid, call_component c = Some cid -> exists name, list' !! name = Some cid)
             (process_alerts cachet config list' st cst af alerts).
Proof.
  induction alerts as [|a rest IH]; intros af; cbn [process_alerts]; [apply only_calls_ret|].
  apply only_calls_bind; [|intros; apply IH].
  unfold process_alert. destruct (list' !! label_value config a) as [cid|] eqn:Hcid;
    [|apply only_calls_ret].
  case_match; [|apply only_calls_ret].
  apply only_calls_bind; [|intros; apply only_calls_ret].
  eapply only_calls_weaken; [|apply fire_component].
  intros c Hc x Hx. exists (label_value config a). rewrite (Hc x Hx). exact Hcid.
Qed.

End SubmitLaws.

Module Extras.

(** The layout parser reads back every in-range time written in the
    layout "2006-01-02 15:04:05" with zero-padded fields: the year, month,
    day, hour, minute and second are recovered, with no fraction. *)
Theorem parse_render y mo d h mi s :
  0 <= y <= 9999 -> 1 <= mo <= 12 -> 1 <= d <= GoTime.daysIn mo y ->
  0 <= h < 24 -> 0 <= mi < 60 -> 0 <= s < 60 ->
  GoTime.ParseLayout (render y mo d h mi s) = Some (GoTime.Date y mo d h mi s 0).
Proof.
  intros Hy Hmo Hd Hh Hmi Hs.
  assert (Hdays : GoTime.daysIn mo y <= 31) by (unfold GoTime.daysIn; repeat case_match; lia).
  unfold GoTime.ParseLayout, render. rewrite list_ascii_of_string_of_list_ascii.
  destruct (digit_ok (y / 1000)) as [Hy0 _]; [Z.div_mod_to_equations; lia|].
  assert (E1 : (mo <=? 0) = false) by (apply Z.leb_gt; lia).
  assert (E2 : (12 <? mo) = false) by (apply Z.ltb_ge; lia).
  assert (E3 : (h <? 0) = false) by (apply Z.ltb_ge; lia).
  assert (E4 : (24 <=? h) = false) by (apply Z.leb_gt; lia).
  assert (E5 : (mi <? 0) = false) by (apply Z.ltb_ge; lia).
  assert (E6 : (60 <=? mi) = false) by (apply Z.leb_gt; lia).
  assert (E7 : (s <? 0) = false) by (apply Z.ltb_ge; lia).
  assert (E8 : (60 <=? s) = false) by (apply Z.leb_gt; lia).
  assert (E9 : (d <? 1) = false) by (apply Z.ltb_ge; lia).
  assert (E10 : (GoTime.daysIn mo y <? d) = false) by (apply Z.ltb_ge; lia).
  cbn -[digit GoTime.cutspace GoTime.getnum GoTime.atoi_digits Z.leb Z.ltb GoTime.daysIn GoTime.Date Z.div Z.modulo GoTime.is_digit].
  rewrite Hy0, atoi_four by lia. cbn -[digit GoTime.cutspace GoTime.getnum Z.leb Z.ltb GoTime.daysIn GoTime.Date Z.div Z.modulo].
  rewrite getnum_two by lia. rewrite E1, E2. cbn -[digit GoTime.cutspace GoTime.getnum Z.leb Z.ltb GoTime.daysIn GoTime.Date Z.div Z.modulo].
  rewrite getnum_two by lia. cbn -[digit GoTime.cutspace GoTime.getnum Z.leb Z.ltb GoTime.daysIn GoTime.Date Z.div Z.modulo].
  rewrite cutspace_space, cutspace_digit by (Z.div_mod_to_equations; lia).
  rewrite getnum_two by lia. rewrite E3, E4. cbn -[digit GoTime.cutspace GoTime.getnum Z.leb Z.ltb GoTime.daysIn GoTime.Date Z.div Z.modulo].
  rewrite getnum_two by lia. rewrite E5, E6. cbn -[digit GoTime.cutspace GoTime.getnum Z.leb Z.ltb GoTime.daysIn GoTime.Date Z.div Z.modulo].
  rewrite getnum_two by lia. rewrite E7, E8. cbn -[digit GoTime.cutspace GoTime.getnum Z.leb Z.ltb GoTime.daysIn GoTime.Date Z.div Z.modulo].
  rewrite E9, E10. reflexivity.
Qed.

Lemma parse_render_witness :
  GoTime.ParseLayout "2024-02-29 23:59:59" = Some (GoTime.Date 2024 2 29 23 59 59 0).
Proof.
  exact (parse_render 2024 2 29 23 59 59 ltac:(lia) ltac:(lia) ltac:(vm_compute; split; discriminate)
           ltac:(lia) ltac:(lia) ltac:(lia)).
Defined.

Definition token_config : PrometheusCachetConfig :=
  {| PrometheusToken := "secret"; LogLevel := "info"; LabelName := "service"; SquashIncident := true |}.

(** With a non-empty token, a request whose Authorization header is not
    exactly "Bearer <token>" is answered "wrong Authorization header"
    without any call on the status page, whatever its body. *)
Theorem wrong_token_rejected (cachet : Cachet) (config : PrometheusCachetConfig)
  (auth : string) (body : string + PrometheusAlert) (history : list Call)
  (Htoken : PrometheusToken config <> ""%string)
  (Hauth : auth <> ("Bearer " +++ PrometheusToken config)) :
  SubmitAlert cachet config auth body history = (history, BadRequest "wrong Authorization header").
Proof.
  unfold SubmitAlert.
  apply String.eqb_neq in Htoken. apply String.eqb_neq in Hauth.
  now rewrite Htoken, Hauth.
Qed.

Lemma wrong_token_rejected_witness :
  SubmitAlert Page.page token_config "secret" (inr (Page.group "firing" [Page.alert_of "api"])) [] =
    ([], BadRequest "wrong Authorization header").
Proof. apply wrong_token_rejected; discriminate. Defined.

(** Once the header passes the check (no token configured, or exactly
    "Bearer <token>"), it has no further effect: two accepted headers give
    the same calls and the same answer. *)
Theorem accepted_header_irrelevant (cachet : Cachet) (config : PrometheusCachetConfig)
  (auth1 auth2 : string) (body : string + PrometheusAlert) (history : list Call)
  (H1 : PrometheusToken config = ""%string \/ auth1 = ("Bearer " +++ PrometheusToken config))
  (H2 : PrometheusToken config = ""%string \/ auth2 = ("Bearer " +++ PrometheusToken config)) :
  SubmitAlert cachet config auth1 body history = SubmitAlert cachet config auth2 body history.
Proof. by rewrite (submit_accepted cachet config auth1 body history H1), (submit_accepted cachet config auth2 body history H2). Qed.

Lemma accepted_header_irrelevant_witness :
  SubmitAlert Page.page Page.squash_config "Bearer anything" (inr (Page.group "firing" [Page.alert_of "api"])) [] =
  SubmitAlert Page.page Page.squash_config "" (inr (Page.group "firing" [Page.alert_of "api"])) [].
Proof. apply accepted_header_irrelevant; left; reflexivity. Defined.

(** A body that fails to bind is answered with the binding error, and no
    call is made on the status page. *)
Theorem bind_error_answered (cachet : Cachet) (config : PrometheusCachetConfig)
  (auth e : string) (history : list Call)
  (Hacc : PrometheusToken config = ""%string \/ auth = ("Bearer " +++ PrometheusToken config)) :
  SubmitAlert cachet config auth (inl e) history = (history, BadRequest e).
Proof. by rewrite (submit_accepted cachet config auth (inl e) history Hacc). Qed.

Lemma bind_error_answered_witness :
  SubmitAlert Page.page token_config "Bearer secret" (inl "EOF"%string) [] = ([], BadRequest "EOF").
Proof. apply bind_error_answered. right. reflexivity. Defined.

(** When listing the components fails, that is the only call made: the
    error is the answer and no alert is looked at. *)
Theorem list_components_error (cachet : Cachet) (config : PrometheusCachetConfig)
  (auth : string) (alerts : PrometheusAlert) (history : list Call) (dir : gmap string Z) (e : string)
  (Hacc : PrometheusToken config = ""%string \/ auth = ("Bearer " +++ PrometheusToken config))
  (Hlist : ListComponents cachet history = (dir, Some e)) :
  SubmitAlert cachet config auth (inr alerts) history = (history ++ [CListComponents], BadRequest e).
Proof.
  rewrite (submit_accepted cachet config auth (inr alerts) history Hacc).
  unfold handle. destruct (derive_status alerts) as [st cst].
  unfold bind, listComponents, issue. cbn [fst snd]. rewrite Hlist. reflexivity.
Qed.

Definition page_down : Cachet := {|
  ListComponents := fun _ => (∅, Some "dial tcp: connection refused"%string);
  SearchIncidents := fun _ _ => ([], None);
  CreateIncident := fun _ _ _ _ _ => None;
  UpdateIncident := fun _ _ _ _ _ _ => None;
  ReadIncident := fun _ iid => ({| Id := iid; IncStatus := 0; CreatedAt := ""; UpdatedAt := "" |}, None)
|}.

Lemma list_components_error_witness :
  SubmitAlert page_down Page.squash_config "" (inr (Page.group "firing" [Page.alert_of "api"])) [] =
    ([CListComponents], BadRequest "dial tcp: connection refused").
Proof. exact (list_components_error page_down Page.squash_config "" _ [] ∅ _ (or_introl eq_refl) eq_refl). Defined.

(** A batch in which no alert's label value is in the directory (the empty
    batch included) makes only the listing call and is answered OK. *)
Theorem no_known_component_ok (cachet : Cachet) (config : PrometheusCachetConfig)
  (auth : string) (alerts : PrometheusAlert) (history : list Call) (dir : gmap string Z)
  (Hacc : PrometheusToken config = ""%string \/ auth = ("Bearer " +++ PrometheusToken config))
  (Hlist : ListComponents cachet history = (dir, None))
  (Hunknown : Forall (fun a => dir !! label_value config a = None) (Alerts alerts)) :
  SubmitAlert cachet config auth (inr alerts) history = (history ++ [CListComponents], StatusOK).
Proof.
  rewrite (submit_accepted cachet config auth (inr alerts) history Hacc).
  unfold handle. destruct (derive_status alerts) as [st cst].
  unfold bind at 1, listComponents, issue. cbn [fst snd]. rewrite Hlist.
  rewrite bind_forget, process_alerts_first_seen.
  rewrite (first_seen_all_marked config dir (Alerts alerts) ∅); [reflexivity|].
  intros a cid Hin Hcid. apply List.Forall_forall with (x := a) in Hunknown; [|exact Hin].
  congruence.
Qed.

Lemma no_known_component_ok_witness :
  SubmitAlert Page.page Page.squash_config ""
    (inr (Page.group "resolved" [Page.alert_of "web"; Page.alert_of "db"])) [] =
    ([CListComponents], StatusOK).
Proof.
  apply (no_known_component_ok Page.page Page.squash_config "" _ [] Page.directory);
    [left; reflexivity | reflexivity |].
  repeat constructor.
Defined.

(** Every search, create and update the loop issues names a component
    that the directory maps some label value to: the handler never
    touches a component it was not given. *)
Theorem calls_in_directory (cachet : Cachet) (config : PrometheusCachetConfig)
  (list' : gmap string Z) (st cst : Z) (af : gmap Z Z) (alerts : list PrometheusAlertDetail) :
  only_calls (fun c => forall cid, call_component c = Some cid -> exists name, list' !! name = Some cid)
             (process_alerts cachet config list' st cst af alerts).
Proof. apply process_alerts_in_directory. Qed.

(** In squash mode a resolved group never creates an incident: the loop
    only searches, updates and reads. *)
Theorem resolved_squash_never_creates (cachet : Cachet) (config : PrometheusCachetConfig)
  (list' : gmap string Z) (cst : Z) (af : gmap Z Z) (alerts : list PrometheusAlertDetail)
  (Hsquash : SquashIncident config = true) :
  only_calls (fun c => is_create c = false) (process_alerts cachet config list' 1 cst af alerts).
Proof.
  revert af. induction alerts as [|a rest IH]; intros af; cbn [process_alerts]; [apply only_calls_ret|].
  apply only_calls_bind; [|intros; apply IH].
  unfold process_alert, fire. rewrite Hsquash. change (negb (1 =? 1)) with false. cbv iota.
  unfold squash_resolved, searchIncidents, updateIncident, readIncident.
  repeat only_calls_step.
  all: reflexivity.
Qed.

Lemma resolved_squash_never_creates_witness :
  only_calls (fun c => is_create c = false)
    (process_alerts Page.page Page.squash_config Page.directory 1 1 ∅ [Page.alert_of "api"]).
Proof. apply resolved_squash_never_creates. reflexivity. Defined.

(** A firing group (any status code but 1) never updates or reads an
    incident, in either mode: the loop only searches and creates. *)
Theorem firing_never_updates (cachet : Cachet) (config : PrometheusCachetConfig)
  (list' : gmap string Z) (st cst : Z) (af : gmap Z Z) (alerts : list PrometheusAlertDetail)
  (Hfiring : st <> 1) :
  only_calls (fun c => is_update_or_read c = false) (process_alerts cachet config list' st cst af alerts).
Proof.
  revert af. induction alerts as [|a rest IH]; intros af; cbn [process_alerts]; [apply only_calls_ret|].
  apply only_calls_bind; [|intros; apply IH].
  apply Z.eqb_neq in Hfiring.
  unfold process_alert, fire. rewrite Hfiring. cbn [negb].
  unfold squash_firing, create_new_incident, searchIncidents, createIncident.
  repeat only_calls_step.
  all: reflexivity.
Qed.

Lemma firing_never_updates_witness :
  only_calls (fun c => is_update_or_read c = false)
    (process_alerts Page.page Page.squash_config Page.directory 4 4 ∅ [Page.alert_of "api"]).
Proof. apply firing_never_updates. discriminate. Defined.

(** A request makes at most 1 + 4 n calls on the status page, for a batch
    of n alerts: the listing, then at most a search, two updates and a
    read per alert. *)
Theorem submit_call_bound (cachet : Cachet) (config : PrometheusCachetConfig)
  (auth : string) (alerts : PrometheusAlert) (history : list Call) :
  exists new, fst (SubmitAlert cachet config auth (inr alerts) history) = history ++ new
              /\ (length new <= 1 + 4 * length (Alerts alerts))%nat.
Proof.
  unfold SubmitAlert. case_match.
  - exists []. split; [by rewrite app_nil_r | cbn; lia].
  - destruct (handle_at_most cachet config alerts history) as [new [Heq Hlen]].
    exists new. split; [|exact Hlen].
    destruct (handle cachet config alerts history) as [tr [r|r]]; exact Heq.
Qed.

(** Alerts repeated later in the same batch change nothing: processing
    [alerts1 ++ alerts2], where every alert of [alerts2] already occurs in
    [alerts1], makes the same calls and gives the same outcome as
    processing [alerts1]. *)
Theorem repeated_alerts_ignored (cachet : Cachet) (config : PrometheusCachetConfig)
  (list' : gmap string Z) (st cst : Z) (af : gmap Z Z) (alerts1 alerts2 : list PrometheusAlertDetail)
  (Hrepeat : Forall (fun a => In a alerts1) alerts2) :
  forall tr,
    forget_result (process_alerts cachet config list' st cst af (alerts1 ++ alerts2) tr) =
    forget_result (process_alerts cachet config list' st cst af alerts1 tr).
Proof.
  intros tr. rewrite !process_alerts_first_seen, first_seen_app.
  rewrite (first_seen_all_marked config list' alerts2); [by rewrite app_nil_r|].
  intros a cid Hin Hcid.
  apply List.Forall_forall with (x := a) in Hrepeat; [|exact Hin].
  eapply mark_all_marks; eauto.
Qed.

Lemma repeated_alerts_ignored_witness :
  forget_result (process_alerts Page.page Page.squash_config Page.directory 4 4 ∅
                   ([Page.alert_of "api"; Page.alert_of "web"] ++ [Page.alert_of "api"]) []) =
  forget_result (process_alerts Page.page Page.squash_config Page.directory 4 4 ∅
                   [Page.alert_of "api"; Page.alert_of "web"] []).
Proof.
  apply repeated_alerts_ignored. repeat constructor; cbn; auto.
Defined.

(** The router: [GET /health] answers OK with no call on the status page
    and no token check; [POST /alert] is [SubmitAlert]; any other request
    (redirected or not found) makes no call. *)
Theorem router_routes (cachet : Cachet) (config : PrometheusCachetConfig)
  (req : Request) (history : list Call) :
  (Method req = "GET"%string -> Path req = "/health"%string ->
   PrepareGinRouter cachet config req history = (history, Written StatusOK))
  /\ (Method req = "POST"%string -> Path req = "/alert"%string ->
      PrepareGinRouter cachet config req history =
      let '(h, r) := SubmitAlert cachet config (AuthorizationHeader req) (Body req) history in
      (h, Written r))
  /\ (~ (Method req = "POST"%string /\ Path req = "/alert"%string) ->
      fst (PrepareGinRouter cachet config req history) = history).
Proof.
  unfold PrepareGinRouter. split; [|split].
  - intros -> ->. reflexivity.
  - intros -> ->. reflexivity.
  - intros Hnot.
    destruct (String.eqb (Method req) "GET" && String.eqb (Path req) "/health"); [reflexivity|].
    destruct (String.eqb (Method req) "POST") eqn:Hm, (String.eqb (Path req) "/alert") eqn:Hp.
    + exfalso. apply Hnot. split; by apply String.eqb_eq.
    + cbn. by case_match.
    + cbn. by case_match.
    + cbn. by case_match.
Qed.

End Extras.
